(** * The IOKit OS abstraction layer of the LVM2 partition scheme

    A shallow embedding of [src/kext/lvm2_osal_iokit.cpp]: the allocator
    adapter ([lvm2_malloc], [lvm2_free]), the I/O buffer
    ([lvm2_io_buffer_create], [lvm2_io_buffer_destroy]), and the block
    device handle ([lvm2_unix_device_create], [lvm2_unix_device_destroy],
    [lvm2_device_read]).

    The C++ code works on kernel objects through pointers.  Here the kernel
    heap is a pair of finite maps (IOMalloc'ed blocks, and live
    IOBufferMemoryDescriptor objects), the calls made on IOStorage, IOMedia
    and the log are recorded in a trace, and every function is a
    computation in a state monad whose outcome can also be [Undefined]
    (a dereference of a pointer that is not live, a division by zero, a
    copy that reads past the end of its source). *)

From Stdlib Require Import ZArith Lia.
From Stdlib.Strings Require Import Byte.
From stdpp Require Import base option list gmap.

Local Open Scope Z_scope.

(** ** Platform: the widths the kernel headers fix *)

Inductive platform : Type := ILP32 | LP64.

Definition size_bits (p : platform) : Z :=
  match p with ILP32 => 32 | LP64 => 64 end.

(* machine/limits.h: SSIZE_MAX is LONG_MAX *)
Definition SSIZE_MAX (p : platform) : Z := 2 ^ (size_bits p - 1) - 1.

(** Modelled from the spec: [U32_MAX] is declared in lvm2_types.h, which is
    not among the sources; the spec gives the bound on the block size as
    the largest 32-bit unsigned integer, 2^32 - 1. *)
Definition U32_MAX : Z := 4294967295.

(** Modelled from the spec: the typedefs [u32] and [u64] are declared in
    lvm2_types.h, which is not among the sources; the spec has them as the
    32-bit and 64-bit unsigned integers.  A conversion to one of them
    reduces modulo 2^32 or 2^64. *)
Definition u32 (z : Z) : Z := z mod 2 ^ 32.
Definition u64 (z : Z) : Z := z mod 2 ^ 64.

(* conversion to size_t *)
Definition size_t (p : platform) (z : Z) : Z := z mod 2 ^ size_bits p.

(* sys/errno.h *)
Definition EIO : Z := 5.
Definition ENOMEM : Z := 12.
Definition EACCES : Z := 13.
Definition EINVAL : Z := 22.
Definition ERANGE : Z := 34.

(** ** Data model *)

(* the address of a live or freed kernel object *)
Abbreviation addr := nat (only parsing).

(* a C pointer: [None] is NULL *)
Abbreviation pointer := (option nat) (only parsing).

(* IOStorage and IOMedia objects are owned by the I/O registry; the code
   only holds references to them *)
Abbreviation IOStorage := nat (only parsing).
Abbreviation IOMedia := nat (only parsing).

Record lvm2_io_buffer : Type := Build_io_buffer {
  buffer : addr                        (* IOBufferMemoryDescriptor *buffer *)
}.

Record lvm2_device : Type := Build_device {
  storage : IOStorage;
  media : IOMedia;
  block_size : Z                       (* u32 *)
}.

(* what an IOMalloc'ed block holds *)
Inductive block : Type :=
| BRaw (size : Z)
| BIoBuffer (b : lvm2_io_buffer)
| BDevice (d : lvm2_device).

Definition sizeof_lvm2_io_buffer (p : platform) : Z := size_bits p / 8.
Definition sizeof_lvm2_device (p : platform) : Z := 3 * (size_bits p / 8).

(* the LogError call sites of the file *)
Inductive log_msg : Type :=
| LogDescriptorAlloc       (* "Error while allocating IOBufferMemoryDescriptor ..." *)
| LogUnrealisticBlockSize  (* "Unrealistic media block size: ..." *)
| LogOpenMedia             (* "Error while opening media." *)
| LogUnalignedRead         (* "Warning: Unaligned read. Aligning ..." *)
| LogTempAlloc             (* "Temporary memory allocation (...) failed." *)
| LogWriteBack.            (* "Failed to write data back into the input buffer. ..." *)

(* calls made on the collaborators, in program order *)
Inductive event : Type :=
| EvLogError (m : log_msg)
| EvOpen (s : IOStorage) (ok : bool)
| EvClose (s : IOStorage)
| EvRead (m : IOMedia) (s : IOStorage) (pos len : Z) (ok : bool).

Record world : Type := World {
  w_mem : gmap nat block;              (* IOMalloc'ed blocks *)
  w_bmd : gmap nat (list byte);        (* live IOBufferMemoryDescriptors: their bytes *)
  w_trace : list event
}.

Definition set_mem (f : gmap nat block -> gmap nat block) (w : world) : world :=
  World (f (w_mem w)) (w_bmd w) (w_trace w).
Definition set_bmd (f : gmap nat (list byte) -> gmap nat (list byte)) (w : world) : world :=
  World (w_mem w) (f (w_bmd w)) (w_trace w).
Definition add_trace (e : event) (w : world) : world :=
  World (w_mem w) (w_bmd w) (w_trace w ++ [e]).

(* the answers of the kernel and of the device during one call *)
Record env : Type := Env {
  IOMalloc_ok : Z -> bool;             (* does IOMalloc(size) return memory? *)
  withCapacity_ok : Z -> bool;         (* does withCapacity(capacity) return an object? *)
  getPreferredBlockSize : IOMedia -> Z;
  storage_open_ok : IOStorage -> bool;
  media_content : IOMedia -> Z -> byte;         (* the device's byte stream *)
  media_read_ok : IOMedia -> Z -> Z -> bool     (* does read(byteStart, length) succeed? *)
}.

(** ** The monad: state passing with undefined behaviour *)

Inductive outcome (A : Type) : Type :=
| Done (a : A) (w : world)
| Undefined.
Arguments Done {A} a w.
Arguments Undefined {A}.

Definition M (A : Type) : Type := world -> outcome A.

Definition ret {A : Type} (a : A) : M A := fun w => Done a w.

Definition bind {A B : Type} (c : M A) (k : A -> M B) : M B :=
  fun w => match c w with
           | Done a w' => k a w'
           | Undefined => Undefined
           end.

Definition undefined {A : Type} : M A := fun _ => Undefined.

Declare Scope osal_scope.
Delimit Scope osal_scope with osal.
Notation "'let*' x ':=' c 'in' k" := (bind c (fun x => k))
  (at level 10, x name, c at level 100, k at level 200) : osal_scope.
Notation "'run' c 'then' k" := (bind c (fun _ => k))
  (at level 10, c at level 100, k at level 200) : osal_scope.
Local Open Scope osal_scope.

Definition emit (e : event) : M unit := fun w => Done tt (add_trace e w).

Definition load_io_buffer (a : addr) : M lvm2_io_buffer :=
  fun w => match w_mem w !! a with
           | Some (BIoBuffer b) => Done b w
           | _ => Undefined
           end.

Definition load_device (a : addr) : M lvm2_device :=
  fun w => match w_mem w !! a with
           | Some (BDevice d) => Done d w
           | _ => Undefined
           end.

(* writing the fields of a struct through a pointer to an allocated block *)
Definition store (a : addr) (b : block) : M unit :=
  fun w => match w_mem w !! a with
           | Some _ => Done tt (set_mem (insert a b) w)
           | None => Undefined
           end.

(* the bytes [content pos .. content (pos + len - 1)] *)
Definition slice (content : Z -> byte) (pos len : Z) : list byte :=
  map content (seqZ pos len).

(* how many bytes writeBytes(0, src, in_count) transfers into a descriptor
   that holds [old]: min(in_count, getLength()) *)
Definition bytes_copied (in_count : Z) (old : list byte) : Z :=
  Z.min in_count (Z.of_nat (length old)).

(** ** The derived quantities of a read request *)

(* lead_in = (u32) (in_pos % dev->block_size); *)
Definition lead_in (bs in_pos : Z) : Z := u32 (in_pos mod bs).

(* lead_out = dev->block_size - (u32) ((lead_in + in_count) % dev->block_size); *)
Definition lead_out (p : platform) (bs in_pos in_count : Z) : Z :=
  u32 (bs - u32 (size_t p (lead_in bs in_pos + in_count) mod bs)).

(* aligned_pos = in_pos - lead_in; *)
Definition aligned_pos (bs in_pos : Z) : Z := u64 (in_pos - lead_in bs in_pos).

(* aligned_count = lead_in + count + lead_out;
   [count] is the local variable of that name, which has not been assigned
   when this line runs: [count0] is the value it happens to hold *)
Definition aligned_count (p : platform) (bs in_pos in_count count0 : Z) : Z :=
  size_t p (lead_in bs in_pos + count0 + lead_out p bs in_pos in_count).

Section Code.

Variable p : platform.
Variable E : env.

(** ** The collaborators: IOLib, IOBufferMemoryDescriptor, IOStorage, IOMedia *)

(** Modelled from the spec: the macro [LogError] is declared in lvm2_osal.h,
    which is not among the sources; the spec has logging as a side effect
    whose content is not specified.  A call is recorded in the trace with
    the call site it comes from. *)
Definition LogError (m : log_msg) : M unit := emit (EvLogError m).

Definition IOMalloc (size : Z) : M pointer :=
  fun w => if IOMalloc_ok E size
           then let a := fresh (dom (w_mem w)) in
                Done (Some a) (set_mem (insert a (BRaw size)) w)
           else Done None w.

(* IOFree ignores a NULL address; freeing what is not allocated is undefined *)
Definition IOFree (ptr : pointer) (size : Z) : M unit :=
  fun w => match ptr with
           | None => Done tt w
           | Some a => match w_mem w !! a with
                       | Some _ => Done tt (set_mem (delete a) w)
                       | None => Undefined
                       end
           end.

(* IOBufferMemoryDescriptor::withCapacity: a new object of length
   [capacity], distinct from every live one *)
Definition withCapacity (capacity : Z) : M pointer :=
  fun w => if withCapacity_ok E capacity
           then let a := fresh (dom (w_bmd w)) in
                Done (Some a)
                     (set_bmd (insert a (replicate (Z.to_nat capacity) x00)) w)
           else Done None w.

Definition getBytesNoCopy (b : addr) : M (list byte) :=
  fun w => match w_bmd w !! b with
           | Some bytes => Done bytes w
           | None => Undefined
           end.

Definition getLength (b : addr) : M Z :=
  let* bytes := getBytesNoCopy b in ret (Z.of_nat (length bytes)).

Definition setBytes (b : addr) (bytes : list byte) : M unit :=
  fun w => match w_bmd w !! b with
           | Some _ => Done tt (set_bmd (insert b bytes) w)
           | None => Undefined
           end.

(* release() drops the reference withCapacity returned; nothing in the file
   retains a descriptor, so the object is freed *)
Definition release (b : addr) : M unit :=
  fun w => match w_bmd w !! b with
           | Some _ => Done tt (set_bmd (delete b) w)
           | None => Undefined
           end.

(* IOMemoryDescriptor::writeBytes(offset, bytes, length): copies
   min(length, getLength() - offset) bytes from [bytes] into the descriptor
   at [offset] and returns how many it copied; nothing when [offset] is not
   inside the descriptor.  [src] is what is readable at [bytes]. *)
Definition writeBytes (b : addr) (offset : Z) (src : list byte) (len : Z) : M Z :=
  let* old := getBytesNoCopy b in
  let L := Z.of_nat (length old) in
  if L <=? offset then ret 0
  else
    let n := Z.min len (L - offset) in
    if Z.of_nat (length src) <? n then undefined
    else
      run setBytes b (take (Z.to_nat offset) old ++ take (Z.to_nat n) src
                        ++ drop (Z.to_nat (offset + n)) old) then
      ret n.

(* storage->open(storage, 0, kIOStorageAccessReader) *)
Definition storage_open (s : IOStorage) : M bool :=
  let ok := storage_open_ok E s in
  run emit (EvOpen s ok) then ret ok.

(* storage->close(storage) *)
Definition storage_close (s : IOStorage) : M unit := emit (EvClose s).

(* media->read(client, byteStart, buffer): transfers getLength() bytes of
   the device, from byteStart on, into the buffer; the result is whether
   the status is kIOReturnSuccess *)
Definition media_read (m : IOMedia) (s : IOStorage) (pos : Z) (buf : addr) : M bool :=
  let* len := getLength buf in
  let ok := media_read_ok E m pos len in
  run emit (EvRead m s pos len ok) then
  if ok then run setBytes buf (slice (media_content E m) pos len) then ret true
  else ret false.

(** ** Allocator adapter *)

(* An out-parameter [T **out] is modelled by passing the value [*out] holds
   on entry and returning the value it holds on exit. *)

Definition lvm2_malloc (size : Z) (out_ptr : pointer) : M (Z * pointer) :=
  let* ptr := IOMalloc size in
  match ptr with
  | Some _ => ret (0, ptr)
  | None => ret (ENOMEM, out_ptr)
  end.

Definition lvm2_free (ptr : pointer) (size : Z) : M pointer :=
  run IOFree ptr size then
  ret None.

(** ** I/O buffer *)

Definition lvm2_io_buffer_create (size : Z) (out_buf : pointer) : M (Z * pointer) :=
  let* r := lvm2_malloc (sizeof_lvm2_io_buffer p) None in
  let '(err, buf) := r in
  if err =? 0 then
    match buf with
    | None => undefined
    | Some a =>
        let* buffer := withCapacity size in
        match buffer with
        | None =>
            run LogError LogDescriptorAlloc then
            run lvm2_free buf (sizeof_lvm2_io_buffer p) then
            ret (ENOMEM, out_buf)
        | Some d =>
            run store a (BIoBuffer (Build_io_buffer d)) then
            ret (0, buf)
        end
    end
  else ret (err, out_buf).

Definition lvm2_io_buffer_get_bytes (buf : addr) : M (list byte) :=
  let* b := load_io_buffer buf in
  getBytesNoCopy (buffer b).

Definition lvm2_io_buffer_destroy (buf : pointer) : M pointer :=
  match buf with
  | None => undefined
  | Some a =>
      let* b := load_io_buffer a in
      run release (buffer b) then
      lvm2_free buf (sizeof_lvm2_io_buffer p)
  end.

(** ** Block device handle *)

Definition lvm2_unix_device_create (storage : IOStorage) (media : IOMedia)
    (out_dev : pointer) : M (Z * pointer) :=
  let mediaBlockSize := u64 (getPreferredBlockSize E media) in
  if U32_MAX <? mediaBlockSize then
    run LogError LogUnrealisticBlockSize then
    ret (EINVAL, out_dev)
  else
    let* mediaIsOpen := storage_open storage in
    if negb mediaIsOpen then
      run LogError LogOpenMedia then
      ret (EACCES, out_dev)
    else
      let* r := lvm2_malloc (sizeof_lvm2_device p) None in
      let '(err, dev) := r in
      if err =? 0 then
        match dev with
        | None => undefined
        | Some a =>
            run store a (BDevice (Build_device storage media (u32 mediaBlockSize))) then
            ret (err, dev)
        end
      else
        run storage_close storage then
        ret (err, out_dev).

Definition lvm2_unix_device_destroy (dev : pointer) : M pointer :=
  match dev with
  | None => undefined
  | Some a =>
      let* d := load_device a in
      run storage_close (storage d) then
      lvm2_free dev (sizeof_lvm2_device p)
  end.

(* [count0] is the indeterminate initial value of the local [count]. *)
Definition lvm2_device_read (dev : addr) (in_pos in_count : Z) (in_buf : addr)
    (count0 : Z) : M Z :=
  if SSIZE_MAX p <? in_count then ret ERANGE
  else
    let* d := load_device dev in
    let bs := block_size d in
    if bs =? 0 then undefined
    else
      let lead_in := lead_in bs in_pos in
      let lead_out := lead_out p bs in_pos in_count in
      let* unaligned :=
        (if negb (lead_in =? 0) || negb (lead_out =? 0) then ret true
         else
           let* ib := load_io_buffer in_buf in
           let* len := getLength (buffer ib) in
           ret (negb (in_count =? len))) in
      let* sel :=
        (if unaligned : bool then
           let aligned_pos := aligned_pos bs in_pos in
           let aligned_count := aligned_count p bs in_pos in_count count0 in
           run LogError LogUnalignedRead then
           let* aligned_buf := withCapacity aligned_count in
           match aligned_buf with
           | None =>
               run LogError LogTempAlloc then
               ret (inl ENOMEM)
           | Some a => ret (inr (aligned_pos, a))
           end
         else
           let* ib := load_io_buffer in_buf in
           ret (inr (in_pos, buffer ib))) in
      match sel with
      | inl e => ret e                                   (* return ENOMEM; *)
      | inr (pos, buf) =>
          let* status := media_read (media d) (storage d) pos buf in
          let* err :=
            (if negb status then ret EIO
             else
               let* ib := load_io_buffer in_buf in
               run (if negb (Nat.eqb buf (buffer ib)) then
                      let* src := getBytesNoCopy buf in
                      let* res := writeBytes (buffer ib) 0 src in_count in
                      if negb (res =? in_count) then LogError LogWriteBack
                      else ret tt
                    else ret tt) then
               ret 0) in
          let* ib := load_io_buffer in_buf in
          run (if negb (Nat.eqb buf (buffer ib)) then release buf else ret tt) then
          ret err
      end.

End Code.

(** ** Bookkeeping on traces and heaps *)

(* successful opens of [s] minus closes of [s] *)
Fixpoint open_balance (s : IOStorage) (t : list event) : Z :=
  match t with
  | [] => 0
  | EvOpen s' true :: t' => (if Nat.eqb s s' then 1 else 0) + open_balance s t'
  | EvClose s' :: t' => (if Nat.eqb s s' then -1 else 0) + open_balance s t'
  | _ :: t' => open_balance s t'
  end.

(* a computation that leaves the IOMalloc'ed blocks as they are whenever
   it returns *)
Definition mem_stable {A : Type} (c : M A) : Prop :=
  forall w a w', c w = Done a w' -> w_mem w' = w_mem w.

(* a computation whose result, whenever it returns, satisfies [P] *)
Definition returns {A : Type} (P : A -> Prop) (c : M A) : Prop :=
  forall w a w', c w = Done a w' -> P a.

(** ** A concrete device, for the examples *)

(* the device holds the byte [i mod 256] at offset [i] *)
Definition byte_at (i : Z) : byte := default x00 (Byte.of_N (Z.to_N (i mod 256))).

Definition example_env (malloc_ok cap_ok open_ok read_ok : bool) (bs : Z) : env :=
  Env (fun _ => malloc_ok) (fun _ => cap_ok) (fun _ => bs) (fun _ => open_ok)
      (fun _ => byte_at) (fun _ _ _ => read_ok).

(* a handle at address 0 on storage 7 and media 9, and an I/O buffer at
   address 1 whose descriptor 0 holds [dest] *)
Definition example_mem (bs : Z) : gmap nat block :=
  <[0%nat := BDevice (Build_device 7 9 bs)]>
    (<[1%nat := BIoBuffer (Build_io_buffer 0)]> ∅).

Definition example_bmd (dest : list byte) : gmap nat (list byte) :=
  <[0%nat := dest]> ∅.

Definition example_world (bs : Z) (dest : list byte) : world :=
  World (example_mem bs) (example_bmd dest) [].

(** * Properties

    ** Arithmetic of the derived quantities *)

Lemma u32_small z : 0 <= z <= U32_MAX -> u32 z = z.
Proof. intros H. unfold u32, U32_MAX in *. apply Z.mod_small. lia. Qed.

Lemma lead_in_spec bs in_pos :
  0 < bs <= U32_MAX -> lead_in bs in_pos = in_pos mod bs /\ 0 <= lead_in bs in_pos < bs.
Proof.
  intros Hbs. unfold lead_in.
  pose proof (Z.mod_pos_bound in_pos bs ltac:(lia)) as Hm.
  rewrite u32_small by lia. lia.
Qed.

Lemma lead_out_range p bs in_pos in_count :
  0 < bs <= U32_MAX -> 1 <= lead_out p bs in_pos in_count <= bs.
Proof.
  intros Hbs. unfold lead_out.
  pose proof (Z.mod_pos_bound (size_t p (lead_in bs in_pos + in_count)) bs ltac:(lia)) as Hm.
  rewrite (u32_small (_ mod bs)) by lia.
  rewrite u32_small by lia. lia.
Qed.

Lemma size_t_small p z : 0 <= z < 2 ^ size_bits p -> size_t p z = z.
Proof. intros H. unfold size_t. by apply Z.mod_small. Qed.

Lemma lead_out_spec bs in_pos in_count :
  0 < bs <= U32_MAX -> 0 <= in_count <= SSIZE_MAX LP64 ->
  lead_out LP64 bs in_pos in_count = bs - (lead_in bs in_pos + in_count) mod bs.
Proof.
  intros Hbs Hc. destruct (lead_in_spec bs in_pos Hbs) as [_ Hli].
  unfold lead_out.
  rewrite size_t_small.
  - pose proof (Z.mod_pos_bound (lead_in bs in_pos + in_count) bs ltac:(lia)) as Hm.
    rewrite (u32_small (_ mod bs)) by lia. rewrite u32_small by lia. done.
  - unfold SSIZE_MAX, U32_MAX in *. simpl in *. lia.
Qed.

Lemma aligned_count_nonneg p bs in_pos in_count count0 :
  0 <= aligned_count p bs in_pos in_count count0.
Proof.
  unfold aligned_count, size_t. apply Z.mod_pos_bound. destruct p; simpl; lia.
Qed.

(** ** The three ways out of [lvm2_device_read] once the range check passed *)

Lemma length_slice content pos len : length (slice content pos len) = Z.to_nat len.
Proof. unfold slice. by rewrite length_map, length_seqZ. Qed.

Ltac ws := unfold add_trace, set_bmd, set_mem; simpl.

Section ReadPaths.

Variables (p : platform) (E : env).
Variables (mem : gmap nat block) (bmd : gmap nat (list byte)) (tr : list event).
Variables (dev in_buf : addr) (d : lvm2_device) (ib : lvm2_io_buffer).
Variables (in_pos in_count count0 : Z) (old : list byte).

Hypothesis Hcount : in_count <= SSIZE_MAX p.
Hypothesis Hdev : mem !! dev = Some (BDevice d).
Hypothesis Hbs : 0 < block_size d <= U32_MAX.

Lemma scratch_fresh : bmd !! fresh (dom bmd) = None.
Proof. apply not_elem_of_dom. apply is_fresh. Qed.

(* up to the allocation of the scratch buffer: the range check passes, the
   division is defined, and [lead_out] is never 0, so the test of the
   source always selects the unaligned branch *)
Ltac read_start :=
  set (apos := aligned_pos (block_size d) in_pos) in *;
  set (acount := aligned_count p (block_size d) in_pos in_count count0) in *;
  set (scratch := fresh (dom bmd)) in *;
  unfold lvm2_device_read;
  destruct (SSIZE_MAX p <? in_count) eqn:Hlt; [apply Z.ltb_lt in Hlt; lia|];
  unfold bind at 1; unfold load_device; simpl; rewrite Hdev;
  destruct (block_size d =? 0) eqn:Hz; [apply Z.eqb_eq in Hz; lia|];
  pose proof (lead_out_range p (block_size d) in_pos in_count Hbs) as Hlo;
  destruct (lead_out p (block_size d) in_pos in_count =? 0) eqn:Hlo0;
    [apply Z.eqb_eq in Hlo0; lia|];
  rewrite orb_true_r; fold apos acount;
  unfold bind, ret, LogError, emit, withCapacity; ws.

Lemma read_enomem :
  withCapacity_ok E (aligned_count p (block_size d) in_pos in_count count0) = false ->
  lvm2_device_read p E dev in_pos in_count in_buf count0 (World mem bmd tr) =
  Done ENOMEM (World mem bmd
                 (tr ++ [EvLogError LogUnalignedRead; EvLogError LogTempAlloc])).
Proof.
  intros Hcap. read_start. rewrite Hcap. ws. by rewrite <- app_assoc.
Qed.

Hypothesis Hib : mem !! in_buf = Some (BIoBuffer ib).
Hypothesis Hold : bmd !! buffer ib = Some old.

Lemma scratch_ne : fresh (dom bmd) <> buffer ib.
Proof. intros Heq. pose proof scratch_fresh as Hf. congruence. Qed.

Lemma read_eio :
  withCapacity_ok E (aligned_count p (block_size d) in_pos in_count count0) = true ->
  media_read_ok E (media d) (aligned_pos (block_size d) in_pos)
    (aligned_count p (block_size d) in_pos in_count count0) = false ->
  lvm2_device_read p E dev in_pos in_count in_buf count0 (World mem bmd tr) =
  Done EIO (World mem bmd
              (tr ++ [EvLogError LogUnalignedRead;
                      EvRead (media d) (storage d) (aligned_pos (block_size d) in_pos)
                        (aligned_count p (block_size d) in_pos in_count count0) false])).
Proof.
  intros Hcap Hrd. read_start. rewrite Hcap. fold scratch. ws.
  unfold media_read, getLength, getBytesNoCopy, bind, ret, emit. ws.
  rewrite lookup_insert_eq, length_replicate.
  rewrite Z2Nat.id by apply aligned_count_nonneg. rewrite Hrd. ws.
  unfold load_io_buffer. ws. rewrite Hib.
  assert (Hneb : Nat.eqb scratch (buffer ib) = false)
    by (apply Nat.eqb_neq, scratch_ne).
  rewrite Hneb. ws. unfold release. ws. rewrite lookup_insert_eq. ws.
  rewrite delete_insert_eq, delete_id by apply scratch_fresh.
  by rewrite <- app_assoc.
Qed.

Lemma read_ok :
  withCapacity_ok E (aligned_count p (block_size d) in_pos in_count count0) = true ->
  media_read_ok E (media d) (aligned_pos (block_size d) in_pos)
    (aligned_count p (block_size d) in_pos in_count count0) = true ->
  0 <= in_count ->
  bytes_copied in_count old <= aligned_count p (block_size d) in_pos in_count count0 ->
  lvm2_device_read p E dev in_pos in_count in_buf count0 (World mem bmd tr) =
  Done 0 (World mem
            (<[buffer ib :=
                 take (Z.to_nat (bytes_copied in_count old))
                   (slice (media_content E (media d)) (aligned_pos (block_size d) in_pos)
                      (aligned_count p (block_size d) in_pos in_count count0))
                   ++ drop (Z.to_nat (bytes_copied in_count old)) old]> bmd)
            (tr ++ [EvLogError LogUnalignedRead;
                    EvRead (media d) (storage d) (aligned_pos (block_size d) in_pos)
                      (aligned_count p (block_size d) in_pos in_count count0) true]
               ++ (if bytes_copied in_count old =? in_count then []
                   else [EvLogError LogWriteBack]))).
Proof.
  intros Hcap Hrd Hnn Hfit. read_start. rewrite Hcap. fold scratch. ws.
  unfold bytes_copied in *.
  set (L := Z.of_nat (length old)) in *. set (copied := Z.min in_count L) in *.
  pose proof scratch_ne as Hne. pose proof scratch_fresh as Hfr.
  fold scratch in Hne, Hfr.
  assert (Hneb : Nat.eqb scratch (buffer ib) = false) by (by apply Nat.eqb_neq).
  unfold media_read, getLength, getBytesNoCopy, setBytes, bind, ret, emit. ws.
  rewrite lookup_insert_eq, length_replicate.
  rewrite Z2Nat.id by apply aligned_count_nonneg. rewrite Hrd. ws.
  rewrite lookup_insert_eq. ws. rewrite insert_insert_eq.
  unfold load_io_buffer. ws. rewrite Hib, Hneb. ws.
  rewrite lookup_insert_eq.
  unfold writeBytes, getBytesNoCopy, setBytes, release, bind, ret. ws.
  rewrite lookup_insert_ne, Hold by done. fold L.
  destruct (L <=? 0) eqn:HL0.
  - apply Z.leb_le in HL0. assert (HL : L = 0) by (unfold L in *; lia).
    assert (Hc : copied = 0) by (unfold copied; lia).
    rewrite Hc, (Z.eqb_sym 0 in_count).
    destruct (in_count =? 0) eqn:Hic; ws; rewrite Hib, Hneb; ws;
      rewrite lookup_insert_eq; ws;
      rewrite delete_insert_eq, delete_id by done;
      rewrite drop_0, (insert_id _ _ _ Hold), <- !app_assoc; reflexivity.
  - apply Z.leb_gt in HL0. rewrite Z.sub_0_r. fold copied.
    rewrite length_slice, Z2Nat.id by apply aligned_count_nonneg.
    destruct (acount <? copied) eqn:Hac; [apply Z.ltb_lt in Hac; lia|].
    ws. rewrite lookup_insert_ne, Hold by done. ws.
    destruct (copied =? in_count) eqn:Hci; ws; rewrite Hib, Hneb; ws;
      rewrite lookup_insert_ne, lookup_insert_eq by done; ws;
      rewrite delete_insert_ne, delete_insert_eq, delete_id by done;
      rewrite <- ?app_assoc; reflexivity.
Qed.

End ReadPaths.

(** ** Rejection of oversize requests *)

(** C5: a call whose count exceeds SSIZE_MAX returns ERANGE at once: the
    world is the one the call started in, so nothing was allocated, no
    device I/O was issued (the trace is unchanged) and neither the handle
    nor the destination buffer was touched.  This holds whatever [dev] and
    [in_buf] point to. *)
Theorem lvm2_device_read_rejects_oversize p E dev in_pos in_count in_buf count0 w :
  SSIZE_MAX p < in_count ->
  lvm2_device_read p E dev in_pos in_count in_buf count0 w = Done ERANGE w.
Proof.
  intros Hbig. unfold lvm2_device_read.
  destruct (SSIZE_MAX p <? in_count) eqn:Hlt; [done|].
  apply Z.ltb_ge in Hlt. lia.
Qed.

Lemma lvm2_device_read_rejects_oversize_witness :
  SSIZE_MAX LP64 < 2 ^ 63 /\
  lvm2_device_read LP64 (example_env true true true true 512) 0 0 (2 ^ 63) 1 0
    (example_world 512 [x00]) = Done ERANGE (example_world 512 [x00]).
Proof.
  split; [vm_compute; reflexivity|].
  apply lvm2_device_read_rejects_oversize. vm_compute. reflexivity.
Defined.

(** ** The scratch buffer *)

(** C4: the scratch buffer does not outlive the call.  For a live handle
    with a usable block size and a well-formed destination buffer (every
    such call takes the unaligned branch, see [read_start]):
    - when the scratch allocation fails the call returns ENOMEM, the trace
      gains the two log entries only (no read was issued) and the set of
      descriptors is the one before the call;
    - when the device read fails the call returns EIO and the descriptors
      are again those before the call: the scratch buffer is gone;
    - when the device read succeeds the call returns 0 and the live
      descriptors are the same objects as before; the scratch buffer is
      not among them. *)
Theorem lvm2_device_read_releases_scratch p E mem bmd tr dev in_buf d ib old
    in_pos in_count count0 :
  0 <= in_count <= SSIZE_MAX p ->
  mem !! dev = Some (BDevice d) ->
  0 < block_size d <= U32_MAX ->
  mem !! in_buf = Some (BIoBuffer ib) ->
  bmd !! buffer ib = Some old ->
  (withCapacity_ok E (aligned_count p (block_size d) in_pos in_count count0) = false ->
   lvm2_device_read p E dev in_pos in_count in_buf count0 (World mem bmd tr) =
   Done ENOMEM (World mem bmd
                  (tr ++ [EvLogError LogUnalignedRead; EvLogError LogTempAlloc])))
  /\
  (withCapacity_ok E (aligned_count p (block_size d) in_pos in_count count0) = true ->
   media_read_ok E (media d) (aligned_pos (block_size d) in_pos)
     (aligned_count p (block_size d) in_pos in_count count0) = false ->
   lvm2_device_read p E dev in_pos in_count in_buf count0 (World mem bmd tr) =
   Done EIO (World mem bmd
               (tr ++ [EvLogError LogUnalignedRead;
                       EvRead (media d) (storage d) (aligned_pos (block_size d) in_pos)
                         (aligned_count p (block_size d) in_pos in_count count0) false])))
  /\
  (withCapacity_ok E (aligned_count p (block_size d) in_pos in_count count0) = true ->
   media_read_ok E (media d) (aligned_pos (block_size d) in_pos)
     (aligned_count p (block_size d) in_pos in_count count0) = true ->
   bytes_copied in_count old <= aligned_count p (block_size d) in_pos in_count count0 ->
   exists w',
     lvm2_device_read p E dev in_pos in_count in_buf count0 (World mem bmd tr) = Done 0 w'
     /\ w_mem w' = mem
     /\ dom (w_bmd w') = dom bmd
     /\ w_bmd w' !! fresh (dom bmd) = None).
Proof.
  intros [Hnn Hcount] Hdev Hbs Hib Hold. split; [|split].
  - intros Hcap. by apply (read_enomem p E mem bmd tr dev in_buf d).
  - intros Hcap Hrd. by apply (read_eio p E mem bmd tr dev in_buf d ib _ _ _ old).
  - intros Hcap Hrd Hfit. eexists. split.
    + by apply (read_ok p E mem bmd tr dev in_buf d ib _ _ _ old).
    + simpl. split; [done|]. split.
      * apply dom_insert_lookup_L. by eexists.
      * rewrite lookup_insert_ne by (symmetry; by eapply scratch_ne).
        apply scratch_fresh.
Qed.

Lemma lvm2_device_read_releases_scratch_witness :
  lvm2_device_read LP64 (example_env true true true false 512) 0 513 1 1 1
    (example_world 512 [xff]) =
  Done EIO (World (example_mem 512) (example_bmd [xff])
              [EvLogError LogUnalignedRead; EvRead 9 7 512 512 false]).
Proof.
  destruct (lvm2_device_read_releases_scratch LP64
              (example_env true true true false 512)
              (example_mem 512) (example_bmd [xff]) [] 0%nat 1%nat
              (Build_device 7 9 512) (Build_io_buffer 0) [xff] 513 1 1)
    as (_ & Heio & _).
  - vm_compute. split; discriminate.
  - reflexivity.
  - vm_compute. split; [reflexivity | discriminate].
  - reflexivity.
  - reflexivity.
  - apply Heio; reflexivity.
Defined.

(** C9: a short copy is not an error.  When the destination descriptor is
    shorter than [in_count], writeBytes transfers [bytes_copied] bytes,
    fewer than [in_count]; the call logs the write-back message and still
    returns 0. *)
Theorem lvm2_device_read_short_copy_succeeds p E mem bmd tr dev in_buf d ib old
    in_pos in_count count0 :
  0 <= in_count <= SSIZE_MAX p ->
  mem !! dev = Some (BDevice d) ->
  0 < block_size d <= U32_MAX ->
  mem !! in_buf = Some (BIoBuffer ib) ->
  bmd !! buffer ib = Some old ->
  withCapacity_ok E (aligned_count p (block_size d) in_pos in_count count0) = true ->
  media_read_ok E (media d) (aligned_pos (block_size d) in_pos)
    (aligned_count p (block_size d) in_pos in_count count0) = true ->
  bytes_copied in_count old <= aligned_count p (block_size d) in_pos in_count count0 ->
  bytes_copied in_count old < in_count ->
  lvm2_device_read p E dev in_pos in_count in_buf count0 (World mem bmd tr) =
  Done 0 (World mem
            (<[buffer ib :=
                 take (Z.to_nat (bytes_copied in_count old))
                   (slice (media_content E (media d)) (aligned_pos (block_size d) in_pos)
                      (aligned_count p (block_size d) in_pos in_count count0))
                   ++ drop (Z.to_nat (bytes_copied in_count old)) old]> bmd)
            (tr ++ [EvLogError LogUnalignedRead;
                    EvRead (media d) (storage d) (aligned_pos (block_size d) in_pos)
                      (aligned_count p (block_size d) in_pos in_count count0) true;
                    EvLogError LogWriteBack])).
Proof.
  intros [Hnn Hcount] Hdev Hbs Hib Hold Hcap Hrd Hfit Hshort.
  rewrite (read_ok p E mem bmd tr dev in_buf d ib _ _ _ old) by done.
  destruct (bytes_copied in_count old =? in_count) eqn:Heq;
    [apply Z.eqb_eq in Heq; lia|].
  reflexivity.
Qed.

Lemma lvm2_device_read_short_copy_succeeds_witness :
  lvm2_device_read LP64 (example_env true true true true 8) 0 3 4 1 4
    (example_world 8 [xff; xff]) =
  Done 0 (World (example_mem 8) (example_bmd [x00; x01])
            [EvLogError LogUnalignedRead; EvRead 9 7 0 8 true;
             EvLogError LogWriteBack]).
Proof.
  unfold example_world.
  rewrite (lvm2_device_read_short_copy_succeeds LP64
             (example_env true true true true 8)
             (example_mem 8) (example_bmd [xff; xff]) [] 0%nat 1%nat
             (Build_device 7 9 8) (Build_io_buffer 0) [xff; xff] 3 4 4).
  - vm_compute. reflexivity.
  - vm_compute. split; discriminate.
  - reflexivity.
  - vm_compute. split; [reflexivity | discriminate].
  - reflexivity.
  - reflexivity.
  - reflexivity.
  - reflexivity.
  - vm_compute. discriminate.
  - vm_compute. reflexivity.
Defined.

(** ** What reaches the destination buffer *)

Lemma take_slice content pos len n :
  0 <= n <= len -> take (Z.to_nat n) (slice content pos len) = slice content pos n.
Proof.
  intros Hn. unfold slice.
  replace len with (n + (len - n)) by lia.
  rewrite seqZ_app, map_app by lia.
  apply take_app_length'. by rewrite length_map, length_seqZ.
Qed.

(* a well-formed, successful call: the destination, whose capacity is the
   count, ends up holding the [in_count] bytes of the device that start at
   [aligned_pos], which is [in_pos] only when [lead_in] is 0 *)
Lemma read_ok_exact_capacity p E mem bmd tr dev in_buf d ib old in_pos in_count count0 :
  in_count <= SSIZE_MAX p ->
  mem !! dev = Some (BDevice d) ->
  0 < block_size d <= U32_MAX ->
  mem !! in_buf = Some (BIoBuffer ib) ->
  bmd !! buffer ib = Some old ->
  withCapacity_ok E (aligned_count p (block_size d) in_pos in_count count0) = true ->
  media_read_ok E (media d) (aligned_pos (block_size d) in_pos)
    (aligned_count p (block_size d) in_pos in_count count0) = true ->
  Z.of_nat (length old) = in_count ->
  in_count <= aligned_count p (block_size d) in_pos in_count count0 ->
  lvm2_device_read p E dev in_pos in_count in_buf count0 (World mem bmd tr) =
  Done 0 (World mem
            (<[buffer ib := slice (media_content E (media d))
                              (aligned_pos (block_size d) in_pos) in_count]> bmd)
            (tr ++ [EvLogError LogUnalignedRead;
                    EvRead (media d) (storage d) (aligned_pos (block_size d) in_pos)
                      (aligned_count p (block_size d) in_pos in_count count0) true])).
Proof.
  intros Hcount Hdev Hbs Hib Hold Hcap Hrd Hlen Hfit.
  assert (Hcopied : bytes_copied in_count old = in_count)
    by (unfold bytes_copied; lia).
  rewrite (read_ok p E mem bmd tr dev in_buf d ib _ _ _ old) by (done || lia).
  rewrite Hcopied, Z.eqb_refl, take_slice by lia.
  rewrite drop_ge by lia. by rewrite !app_nil_r.
Qed.

Lemma lead_out_block_multiple p bs :
  0 < bs <= U32_MAX -> lead_in bs 0 = 0 /\ lead_out p bs 0 bs = bs.
Proof.
  intros Hbs. unfold lead_out, lead_in. rewrite Z.mod_0_l by lia.
  change (u32 0) with 0. rewrite Z.add_0_l, size_t_small.
  - rewrite Z.mod_same by lia. change (u32 0) with 0.
    rewrite Z.sub_0_r. split; [done | apply u32_small; lia].
  - unfold U32_MAX in Hbs. destruct p; simpl; lia.
Qed.

(** C1, at the request block_size = 512, position = 513, count = 1 on the
    example device, with the local [count] holding 1: the call returns 0 and
    the destination holds the byte of the device at offset 512 (the start
    of the scratch buffer), while the byte at offset 513 is a different
    one. *)
Theorem lvm2_device_read_copies_from_scratch_start :
  lvm2_device_read LP64 (example_env true true true true 512) 0 513 1 1 1
    (example_world 512 [xff]) =
  Done 0 (World (example_mem 512) (example_bmd [x00])
            [EvLogError LogUnalignedRead; EvRead 9 7 512 512 true])
  /\ slice byte_at 512 1 = [x00]
  /\ slice byte_at 513 1 = [x01].
Proof. repeat split; vm_compute; reflexivity. Qed.

(** C2, at the same request with the local [count] holding 0: lead_in is 1
    and aligned_pos is 512, but lead_out is 510 and aligned_count comes out
    as 511, so the scratch buffer and the device read are 511 bytes long;
    the byte copied is the one at offset 0 of the scratch buffer. *)
Theorem lvm2_device_read_single_byte_request :
  lead_in 512 513 = 1
  /\ aligned_pos 512 513 = 512
  /\ lead_out LP64 512 513 1 = 510
  /\ aligned_count LP64 512 513 1 0 = 511
  /\ lvm2_device_read LP64 (example_env true true true true 512) 0 513 1 1 0
       (example_world 512 [xff]) =
     Done 0 (World (example_mem 512) (example_bmd [x00])
               [EvLogError LogUnalignedRead; EvRead 9 7 512 511 true]).
Proof. repeat split; vm_compute; reflexivity. Qed.

(** C3, at block_size = 512, position = 0, count = 512 and a destination
    of 512 bytes, with the local [count] holding 512: lead_in is 0, lead_out
    is 512 (not 0), and the call takes the unaligned branch, reading 1024
    bytes into a scratch buffer. *)
Theorem lvm2_device_read_block_multiple_request :
  lead_in 512 0 = 0
  /\ lead_out LP64 512 0 512 = 512
  /\ exists w',
       lvm2_device_read LP64 (example_env true true true true 512) 0 0 512 1 512
         (example_world 512 (replicate 512 xff)) = Done 0 w'
       /\ w_trace w' = [EvLogError LogUnalignedRead; EvRead 9 7 0 1024 true].
Proof.
  split; [vm_compute; reflexivity|]. split; [vm_compute; reflexivity|].
  eexists. split; vm_compute; reflexivity.
Qed.

(** ** Opening a device *)

Lemma u64_range z : 0 <= u64 z < 2 ^ 64.
Proof. unfold u64. apply Z.mod_pos_bound. lia. Qed.

Lemma open_balance_app s t1 t2 :
  open_balance s (t1 ++ t2) = open_balance s t1 + open_balance s t2.
Proof.
  induction t1 as [|e t1 IH]; simpl; [lia|].
  destruct e as [?|? [|]|?|]; rewrite ?IH; lia.
Qed.

Section CreatePaths.

Variables (p : platform) (E : env).
Variables (mem : gmap nat block) (bmd : gmap nat (list byte)) (tr : list event).
Variables (s : IOStorage) (m : IOMedia) (out_dev : pointer).

Ltac create_start :=
  unfold lvm2_unix_device_create;
  set (bs := u64 (getPreferredBlockSize E m)) in *.

Lemma create_einval :
  U32_MAX < u64 (getPreferredBlockSize E m) ->
  lvm2_unix_device_create p E s m out_dev (World mem bmd tr) =
  Done (EINVAL, out_dev)
       (World mem bmd (tr ++ [EvLogError LogUnrealisticBlockSize])).
Proof.
  intros Hbig. create_start.
  destruct (U32_MAX <? bs) eqn:Hlt; [|apply Z.ltb_ge in Hlt; lia].
  reflexivity.
Qed.

Hypothesis Hbs : u64 (getPreferredBlockSize E m) <= U32_MAX.

Lemma create_eacces :
  storage_open_ok E s = false ->
  lvm2_unix_device_create p E s m out_dev (World mem bmd tr) =
  Done (EACCES, out_dev)
       (World mem bmd (tr ++ [EvOpen s false; EvLogError LogOpenMedia])).
Proof.
  intros Hopen. create_start.
  destruct (U32_MAX <? bs) eqn:Hlt; [apply Z.ltb_lt in Hlt; lia|].
  unfold storage_open, bind, ret, LogError, emit. rewrite Hopen. ws.
  by rewrite <- app_assoc.
Qed.

Lemma create_enomem :
  storage_open_ok E s = true ->
  IOMalloc_ok E (sizeof_lvm2_device p) = false ->
  lvm2_unix_device_create p E s m out_dev (World mem bmd tr) =
  Done (ENOMEM, out_dev) (World mem bmd (tr ++ [EvOpen s true; EvClose s])).
Proof.
  intros Hopen Hmalloc. create_start.
  destruct (U32_MAX <? bs) eqn:Hlt; [apply Z.ltb_lt in Hlt; lia|].
  unfold storage_open, lvm2_malloc, IOMalloc, storage_close, bind, ret, emit.
  rewrite Hopen, Hmalloc. ws. by rewrite <- app_assoc.
Qed.

Lemma create_ok :
  storage_open_ok E s = true ->
  IOMalloc_ok E (sizeof_lvm2_device p) = true ->
  lvm2_unix_device_create p E s m out_dev (World mem bmd tr) =
  Done (0, Some (fresh (dom mem)))
       (World (<[fresh (dom mem) :=
                   BDevice (Build_device s m (u64 (getPreferredBlockSize E m)))]> mem)
              bmd (tr ++ [EvOpen s true])).
Proof.
  intros Hopen Hmalloc. create_start.
  destruct (U32_MAX <? bs) eqn:Hlt; [apply Z.ltb_lt in Hlt; lia|].
  unfold storage_open, lvm2_malloc, IOMalloc, store, bind, ret, emit.
  rewrite Hopen, Hmalloc. ws. rewrite lookup_insert_eq. ws.
  rewrite insert_insert_eq, u32_small; [done|].
  pose proof (u64_range (getPreferredBlockSize E m)). fold bs in H. lia.
Qed.

End CreatePaths.

(** C8: a media whose preferred block size does not fit in 32 bits makes
    the call fail with EINVAL.  The only thing the call does is log: the
    trace gains no [EvOpen], the heaps are those before the call and the
    caller's [*out_dev] keeps its value. *)
Theorem lvm2_unix_device_create_rejects_wide_block_size p E mem bmd tr s m out_dev :
  U32_MAX < getPreferredBlockSize E m < 2 ^ 64 ->
  lvm2_unix_device_create p E s m out_dev (World mem bmd tr) =
  Done (EINVAL, out_dev)
       (World mem bmd (tr ++ [EvLogError LogUnrealisticBlockSize])).
Proof.
  intros Hbig. apply create_einval.
  unfold u64. rewrite Z.mod_small; unfold U32_MAX in *; lia.
Qed.

Lemma lvm2_unix_device_create_rejects_wide_block_size_witness :
  U32_MAX < 2 ^ 32 < 2 ^ 64 /\
  lvm2_unix_device_create LP64 (example_env true true true true (2 ^ 32)) 7 9 None
    (World ∅ ∅ []) =
  Done (EINVAL, None) (World ∅ ∅ [EvLogError LogUnrealisticBlockSize]).
Proof.
  split; [vm_compute; split; reflexivity|].
  apply (lvm2_unix_device_create_rejects_wide_block_size LP64
           (example_env true true true true (2 ^ 32)) ∅ ∅ [] 7%nat 9%nat None).
  vm_compute. split; reflexivity.
Defined.

(** C6: when the storage opens and the allocation of the handle record
    then fails, the call closes the storage and returns ENOMEM.  And on
    every return the opens of this storage are accounted for: either the
    call returns 0 and hands out a handle whose record names the storage,
    with one more open than before, or it returns an error, hands out
    nothing, and the opens and closes it made on the storage cancel. *)
Theorem lvm2_unix_device_create_keeps_opens_owned p E mem bmd tr s m out_dev :
  (u64 (getPreferredBlockSize E m) <= U32_MAX ->
   storage_open_ok E s = true ->
   IOMalloc_ok E (sizeof_lvm2_device p) = false ->
   lvm2_unix_device_create p E s m out_dev (World mem bmd tr) =
   Done (ENOMEM, out_dev) (World mem bmd (tr ++ [EvOpen s true; EvClose s])))
  /\
  exists err out w',
    lvm2_unix_device_create p E s m out_dev (World mem bmd tr) = Done (err, out) w'
    /\ ((err = 0
         /\ (exists a d, out = Some a /\ w_mem w' !! a = Some (BDevice d)
                         /\ storage d = s /\ mem !! a = None)
         /\ open_balance s (w_trace w') = open_balance s tr + 1)
        \/
        (err <> 0 /\ out = out_dev /\ w_mem w' = mem
         /\ open_balance s (w_trace w') = open_balance s tr)).
Proof.
  split; [intros; by apply create_enomem|].
  destruct (Z_lt_le_dec U32_MAX (u64 (getPreferredBlockSize E m))) as [Hbig|Hbs].
  { eexists _, _, _. split; [by apply create_einval|]. right.
    simpl. rewrite open_balance_app. simpl. repeat split; [done | lia]. }
  destruct (storage_open_ok E s) eqn:Hopen.
  2:{ eexists _, _, _. split; [by apply create_eacces|]. right.
      simpl. rewrite open_balance_app. simpl. repeat split; [done | lia]. }
  destruct (IOMalloc_ok E (sizeof_lvm2_device p)) eqn:Hmalloc.
  - eexists _, _, _. split; [by apply create_ok|]. left.
    simpl. rewrite open_balance_app. simpl. rewrite Nat.eqb_refl.
    split; [done|]. split; [|lia].
    eexists _, _. split; [done|]. split; [apply lookup_insert_eq|].
    split; [done|]. apply not_elem_of_dom, is_fresh.
  - eexists _, _, _. split; [by apply create_enomem|]. right.
    simpl. rewrite open_balance_app. simpl. rewrite Nat.eqb_refl.
    repeat split; [done | lia].
Qed.

Lemma lvm2_unix_device_create_keeps_opens_owned_witness :
  lvm2_unix_device_create LP64 (example_env false true true true 512) 7 9 None
    (World ∅ ∅ []) =
  Done (ENOMEM, None) (World ∅ ∅ [EvOpen 7 true; EvClose 7])
  /\ open_balance 7 [EvOpen 7 true; EvClose 7] = 0.
Proof.
  split; [|reflexivity].
  destruct (lvm2_unix_device_create_keeps_opens_owned LP64
              (example_env false true true true 512) ∅ ∅ [] 7%nat 9%nat None)
    as [Henomem _].
  apply Henomem; [vm_compute; discriminate | reflexivity | reflexivity].
Defined.

(** ** Destroying *)

Section DestroyPaths.

Variable p : platform.
Variables (mem : gmap nat block) (bmd : gmap nat (list byte)) (tr : list event).

Lemma free_live a blk size :
  mem !! a = Some blk ->
  lvm2_free (Some a) size (World mem bmd tr) = Done None (World (delete a mem) bmd tr).
Proof. intros Ha. unfold lvm2_free, IOFree, bind, ret. ws. by rewrite Ha. Qed.

Lemma io_buffer_destroy_live a ib old :
  mem !! a = Some (BIoBuffer ib) ->
  bmd !! buffer ib = Some old ->
  lvm2_io_buffer_destroy p (Some a) (World mem bmd tr) =
  Done None (World (delete a mem) (delete (buffer ib) bmd) tr).
Proof.
  intros Ha Hold.
  unfold lvm2_io_buffer_destroy, load_io_buffer, release, lvm2_free, IOFree, bind, ret.
  ws. rewrite Ha. ws. rewrite Hold. ws. by rewrite Ha.
Qed.

Lemma device_destroy_live a d :
  mem !! a = Some (BDevice d) ->
  lvm2_unix_device_destroy p (Some a) (World mem bmd tr) =
  Done None (World (delete a mem) bmd (tr ++ [EvClose (storage d)])).
Proof.
  intros Ha.
  unfold lvm2_unix_device_destroy, load_device, storage_close, emit, lvm2_free,
    IOFree, bind, ret.
  ws. rewrite Ha. ws. by rewrite Ha.
Qed.

End DestroyPaths.

Lemma free_Done_inv ptr size w q w' :
  lvm2_free ptr size w = Done q w' -> q = None.
Proof.
  unfold lvm2_free, bind, ret. destruct (IOFree ptr size w); [|done].
  by intros [= <- _].
Qed.

Lemma io_buffer_destroy_Done_inv p ptr w q w' :
  lvm2_io_buffer_destroy p ptr w = Done q w' ->
  q = None /\ exists a ib old,
    ptr = Some a /\ w_mem w !! a = Some (BIoBuffer ib) /\ w_bmd w !! buffer ib = Some old
    /\ w' = World (delete a (w_mem w)) (delete (buffer ib) (w_bmd w)) (w_trace w).
Proof.
  destruct w as [mem bmd tr]. destruct ptr as [a|]; [|done].
  destruct (mem !! a) as [[?|ib|?]|] eqn:Ha;
    try (unfold lvm2_io_buffer_destroy, load_io_buffer, bind; simpl; by rewrite Ha).
  destruct (bmd !! buffer ib) as [old|] eqn:Hold.
  - rewrite (io_buffer_destroy_live p mem bmd tr a ib old) by done.
    intros [= <- <-]. split; [done|]. by eexists _, _, _.
  - unfold lvm2_io_buffer_destroy, load_io_buffer, release, bind. simpl.
    rewrite Ha. simpl. by rewrite Hold.
Qed.

Lemma device_destroy_Done_inv p ptr w q w' :
  lvm2_unix_device_destroy p ptr w = Done q w' ->
  q = None /\ exists a d,
    ptr = Some a /\ w_mem w !! a = Some (BDevice d)
    /\ w' = World (delete a (w_mem w)) (w_bmd w) (w_trace w ++ [EvClose (storage d)]).
Proof.
  destruct w as [mem bmd tr]. destruct ptr as [a|]; [|done].
  destruct (mem !! a) as [[?|?|d]|] eqn:Ha;
    try (unfold lvm2_unix_device_destroy, load_device, bind; simpl; by rewrite Ha).
  rewrite (device_destroy_live p mem bmd tr a d) by done.
  intros [= <- <-]. split; [done|]. by eexists _, _.
Qed.

(** C10: the three release operations leave NULL in the caller's pointer.
    On a live block, a well-formed I/O buffer and a live handle they
    return, with the resource gone from the heap, and the value they leave
    in the pointer is NULL; and whenever any of them returns at all, for
    any pointer and any world, the pointer it leaves is NULL. *)
Theorem destroy_sets_pointer_to_NULL p mem bmd tr a blk size b ib old c d :
  mem !! a = Some blk ->
  mem !! b = Some (BIoBuffer ib) ->
  bmd !! buffer ib = Some old ->
  mem !! c = Some (BDevice d) ->
  lvm2_free (Some a) size (World mem bmd tr) =
    Done None (World (delete a mem) bmd tr)
  /\ lvm2_io_buffer_destroy p (Some b) (World mem bmd tr) =
       Done None (World (delete b mem) (delete (buffer ib) bmd) tr)
  /\ lvm2_unix_device_destroy p (Some c) (World mem bmd tr) =
       Done None (World (delete c mem) bmd (tr ++ [EvClose (storage d)]))
  /\ (forall ptr sz w q w', lvm2_free ptr sz w = Done q w' -> q = None)
  /\ (forall ptr w q w', lvm2_io_buffer_destroy p ptr w = Done q w' -> q = None)
  /\ (forall ptr w q w', lvm2_unix_device_destroy p ptr w = Done q w' -> q = None).
Proof.
  intros Ha Hb Hold Hc. split_and!.
  - by eapply free_live.
  - by eapply io_buffer_destroy_live.
  - by apply device_destroy_live.
  - intros ptr sz w q w' H. by eapply free_Done_inv.
  - intros ptr w q w' H. by apply io_buffer_destroy_Done_inv in H as [? _].
  - intros ptr w q w' H. by apply device_destroy_Done_inv in H as [? _].
Qed.

Lemma destroy_sets_pointer_to_NULL_witness :
  lvm2_free (Some 1%nat) 8
    (example_world 512 [xff]) =
    Done None (World (delete 1%nat (example_mem 512)) (example_bmd [xff]) [])
  /\ lvm2_io_buffer_destroy LP64 (Some 1%nat)
       (example_world 512 [xff]) =
       Done None (World (delete 1%nat (example_mem 512)) (delete 0%nat (example_bmd [xff])) [])
  /\ lvm2_unix_device_destroy LP64 (Some 0%nat)
       (example_world 512 [xff]) =
       Done None (World (delete 0%nat (example_mem 512)) (example_bmd [xff]) [EvClose 7]).
Proof.
  destruct (destroy_sets_pointer_to_NULL LP64 (example_mem 512) (example_bmd [xff]) []
              1%nat (BIoBuffer (Build_io_buffer 0)) 8
              1%nat (Build_io_buffer 0) [xff]
              0%nat (Build_device 7 9 512))
    as (Hfree & Hbuf & Hdev & _); [reflexivity..|].
  auto.
Defined.

(** ** The handle record over the handle's lifetime *)

Lemma mem_stable_ret {A : Type} (a : A) : mem_stable (ret a).
Proof. by intros w a' w' [= _ <-]. Qed.

Lemma mem_stable_undefined {A : Type} : mem_stable (@undefined A).
Proof. by intros w a w'. Qed.

Lemma mem_stable_bind {A B : Type} (c : M A) (k : A -> M B) :
  mem_stable c -> (forall a, mem_stable (k a)) -> mem_stable (bind c k).
Proof.
  intros Hc Hk w b w'. unfold bind. destruct (c w) as [a w1|] eqn:Hcw; [|done].
  intros Hkw. rewrite (Hk _ _ _ _ Hkw). by eapply Hc.
Qed.

Lemma mem_stable_emit e : mem_stable (emit e).
Proof. by intros w a w' [= _ <-]. Qed.

Lemma mem_stable_load_device a : mem_stable (load_device a).
Proof.
  intros w d w'. unfold load_device.
  destruct (w_mem w !! a) as [[| |]|]; try done. by intros [= _ <-].
Qed.

Lemma mem_stable_load_io_buffer a : mem_stable (load_io_buffer a).
Proof.
  intros w d w'. unfold load_io_buffer.
  destruct (w_mem w !! a) as [[| |]|]; try done. by intros [= _ <-].
Qed.

Lemma mem_stable_withCapacity E capacity : mem_stable (withCapacity E capacity).
Proof.
  intros w a w'. unfold withCapacity.
  destruct (withCapacity_ok E capacity); by intros [= _ <-].
Qed.

Lemma mem_stable_getBytesNoCopy b : mem_stable (getBytesNoCopy b).
Proof.
  intros w a w'. unfold getBytesNoCopy.
  destruct (w_bmd w !! b); [|done]. by intros [= _ <-].
Qed.

Lemma mem_stable_setBytes b bytes : mem_stable (setBytes b bytes).
Proof.
  intros w a w'. unfold setBytes.
  destruct (w_bmd w !! b); [|done]. by intros [= _ <-].
Qed.

Lemma mem_stable_release b : mem_stable (release b).
Proof.
  intros w a w'. unfold release.
  destruct (w_bmd w !! b); [|done]. by intros [= _ <-].
Qed.

Ltac mem_stable_with known :=
  repeat first
    [ known
    | apply mem_stable_ret | apply mem_stable_undefined | apply mem_stable_emit
    | apply mem_stable_load_device | apply mem_stable_load_io_buffer
    | apply mem_stable_withCapacity | apply mem_stable_getBytesNoCopy
    | apply mem_stable_setBytes | apply mem_stable_release
    | apply mem_stable_bind; [|intros ?]
    | match goal with
      | |- mem_stable (if ?b then _ else _) => destruct b
      | |- mem_stable (match ?x with _ => _ end) => destruct x
      end ].

Lemma mem_stable_writeBytes b offset src len : mem_stable (writeBytes b offset src len).
Proof. unfold writeBytes. mem_stable_with fail. Qed.

Lemma mem_stable_media_read E m s pos buf : mem_stable (media_read E m s pos buf).
Proof. unfold media_read, getLength. mem_stable_with fail. Qed.

Lemma lvm2_device_read_mem_stable p E dev in_pos in_count in_buf count0 :
  mem_stable (lvm2_device_read p E dev in_pos in_count in_buf count0).
Proof.
  unfold lvm2_device_read, getLength, LogError.
  mem_stable_with
    ltac:(first [ apply mem_stable_writeBytes | apply mem_stable_media_read ]).
Qed.

(** C7, what fails: a media that reports a preferred block size of 0 is
    accepted; the handle returned has block_size = 0, and a read on it
    divides by zero. *)
Lemma lvm2_unix_device_create_accepts_zero_block_size :
  lvm2_unix_device_create LP64 (example_env true true true true 0) 7 9 None
    (World ∅ ∅ []) =
  Done (0, Some 0%nat)
       (World (<[0%nat := BDevice (Build_device 7 9 0)]> ∅) ∅ [EvOpen 7 true])
  /\ ~ (0 < block_size (Build_device 7 9 0))
  /\ lvm2_device_read LP64 (example_env true true true true 0) 0 0 1 1 1
       (example_world 0 [xff]) = Undefined.
Proof. split_and!; [vm_compute; reflexivity | simpl; lia | vm_compute; reflexivity]. Qed.

(** C7, as amended: a handle returned by a successful create records the
    media's preferred block size, a value between 0 and U32_MAX (so it is
    positive exactly when the media reports a non-zero size); no read
    changes any IOMalloc'ed block, so no read changes that record; and a
    destroy of another handle or of an I/O buffer leaves the record as it
    is. *)
Theorem device_block_size_set_at_create_only p E s m out_dev w out w' :
  lvm2_unix_device_create p E s m out_dev w = Done (0, out) w' ->
  exists a d,
    out = Some a
    /\ w_mem w' !! a = Some (BDevice d)
    /\ block_size d = u64 (getPreferredBlockSize E m)
    /\ 0 <= block_size d <= U32_MAX
    /\ (forall E' dev in_pos in_count in_buf count0 w1 err w2,
          lvm2_device_read p E' dev in_pos in_count in_buf count0 w1 = Done err w2 ->
          w_mem w2 = w_mem w1)
    /\ (forall ptr w1 q w2,
          lvm2_unix_device_destroy p ptr w1 = Done q w2 ->
          ptr <> Some a -> w_mem w2 !! a = w_mem w1 !! a)
    /\ (forall ptr w1 q w2,
          lvm2_io_buffer_destroy p ptr w1 = Done q w2 ->
          ptr <> Some a -> w_mem w2 !! a = w_mem w1 !! a).
Proof.
  destruct w as [mem bmd tr]. intros Hcreate.
  destruct (Z_lt_le_dec U32_MAX (u64 (getPreferredBlockSize E m))) as [Hbig|Hbs].
  { by rewrite create_einval in Hcreate. }
  destruct (storage_open_ok E s) eqn:Hopen;
    [|by rewrite create_eacces in Hcreate].
  destruct (IOMalloc_ok E (sizeof_lvm2_device p)) eqn:Hmalloc;
    [|by rewrite create_enomem in Hcreate].
  rewrite create_ok in Hcreate by done. injection Hcreate as <- <-.
  eexists _, _. split_and!.
  - done.
  - apply lookup_insert_eq.
  - done.
  - apply u64_range.
  - done.
  - intros E' dev in_pos in_count in_buf count0 w1 err w2 Hread.
    by eapply lvm2_device_read_mem_stable.
  - intros ptr w1 q w2 Hd Hne.
    apply device_destroy_Done_inv in Hd as (_ & b & d & -> & _ & ->). simpl.
    apply lookup_delete_ne. congruence.
  - intros ptr w1 q w2 Hd Hne.
    apply io_buffer_destroy_Done_inv in Hd as (_ & b & ib & old & -> & _ & _ & ->).
    simpl. apply lookup_delete_ne. congruence.
Qed.

Lemma device_block_size_set_at_create_only_witness :
  exists a d,
    Some 0%nat = Some a
    /\ <[0%nat := BDevice (Build_device 7 9 512)]> (∅ : gmap nat block) !! a
       = Some (BDevice d)
    /\ block_size d = 512.
Proof.
  destruct (device_block_size_set_at_create_only LP64
              (example_env true true true true 512) 7%nat 9%nat None (World ∅ ∅ [])
              (Some 0%nat)
              (World (<[0%nat := BDevice (Build_device 7 9 512)]> ∅) ∅ [EvOpen 7 true]))
    as (a & d & Ha & Hd & Hbs & _).
  - vm_compute. reflexivity.
  - exists a, d. split; [exact Ha|]. split; [exact Hd|]. exact Hbs.
Defined.

(** * Further properties of the code

    ** Allocator adapter and I/O buffer *)

Lemma fresh_mem (mem : gmap nat block) : mem !! fresh (dom mem) = None.
Proof. apply not_elem_of_dom, is_fresh. Qed.

(** X1: an allocation that succeeds hands out, with result 0, a non-NULL
    pointer to a block that was not allocated before, and lvm2_free on that
    pointer gives back exactly the heap the allocation started from and
    leaves NULL in the pointer. *)
Theorem lvm2_malloc_free_round_trip E size out_ptr mem bmd tr :
  IOMalloc_ok E size = true ->
  exists a w1,
    lvm2_malloc E size out_ptr (World mem bmd tr) = Done (0, Some a) w1
    /\ mem !! a = None
    /\ w_mem w1 !! a = Some (BRaw size)
    /\ lvm2_free (Some a) size w1 = Done None (World mem bmd tr).
Proof.
  intros Hok. eexists _, _. split.
  - unfold lvm2_malloc, IOMalloc, bind, ret. rewrite Hok. ws. reflexivity.
  - split; [apply fresh_mem|]. split; [apply lookup_insert_eq|].
    rewrite (free_live _ _ _ _ (BRaw size)) by apply lookup_insert_eq.
    by rewrite delete_insert_id by apply fresh_mem.
Qed.

Lemma lvm2_malloc_free_round_trip_witness :
  exists a w1,
    lvm2_malloc (example_env true true true true 512) 24 None
      (example_world 512 [xff]) = Done (0, Some a) w1
    /\ lvm2_free (Some a) 24 w1 = Done None (example_world 512 [xff]).
Proof.
  destruct (lvm2_malloc_free_round_trip (example_env true true true true 512) 24 None
              (example_mem 512) (example_bmd [xff]) [])
    as (a & w1 & Hm & _ & _ & Hf); [reflexivity|].
  exists a, w1. split; [exact Hm | exact Hf].
Defined.

Section IoBufferCreatePaths.

Variables (p : platform) (E : env).
Variables (mem : gmap nat block) (bmd : gmap nat (list byte)) (tr : list event).
Variables (size : Z) (out_buf : pointer).

Lemma io_buffer_create_malloc_fails :
  IOMalloc_ok E (sizeof_lvm2_io_buffer p) = false ->
  lvm2_io_buffer_create p E size out_buf (World mem bmd tr) =
  Done (ENOMEM, out_buf) (World mem bmd tr).
Proof.
  intros Hm. unfold lvm2_io_buffer_create, lvm2_malloc, IOMalloc, bind, ret.
  rewrite Hm. reflexivity.
Qed.

Lemma io_buffer_create_descriptor_fails :
  IOMalloc_ok E (sizeof_lvm2_io_buffer p) = true ->
  withCapacity_ok E size = false ->
  lvm2_io_buffer_create p E size out_buf (World mem bmd tr) =
  Done (ENOMEM, out_buf) (World mem bmd (tr ++ [EvLogError LogDescriptorAlloc])).
Proof.
  intros Hm Hc.
  unfold lvm2_io_buffer_create, lvm2_malloc, IOMalloc, withCapacity, LogError, emit,
    lvm2_free, IOFree, bind, ret.
  rewrite Hm. ws. rewrite Hc. ws. rewrite lookup_insert_eq.
  by rewrite delete_insert_id by apply fresh_mem.
Qed.

Lemma io_buffer_create_ok :
  IOMalloc_ok E (sizeof_lvm2_io_buffer p) = true ->
  withCapacity_ok E size = true ->
  lvm2_io_buffer_create p E size out_buf (World mem bmd tr) =
  Done (0, Some (fresh (dom mem)))
       (World (<[fresh (dom mem) := BIoBuffer (Build_io_buffer (fresh (dom bmd)))]> mem)
              (<[fresh (dom bmd) := replicate (Z.to_nat size) x00]> bmd)
              tr).
Proof.
  intros Hm Hc.
  unfold lvm2_io_buffer_create, lvm2_malloc, IOMalloc, withCapacity, store, bind, ret.
  rewrite Hm. ws. rewrite Hc. ws. rewrite lookup_insert_eq. ws.
  by rewrite insert_insert_eq.
Qed.

End IoBufferCreatePaths.

(** X2: lvm2_io_buffer_create leaves no partial buffer behind.  Whether the
    struct allocation fails or the descriptor allocation fails after it,
    the call returns ENOMEM, [*out_buf] keeps its value and both heaps are
    the ones before the call (the struct allocated in between has been
    freed); only the log can have grown. *)
Theorem lvm2_io_buffer_create_failure_is_clean p E size out_buf mem bmd tr :
  IOMalloc_ok E (sizeof_lvm2_io_buffer p) = false \/ withCapacity_ok E size = false ->
  lvm2_io_buffer_create p E size out_buf (World mem bmd tr) =
  Done (ENOMEM, out_buf)
       (World mem bmd
          (if IOMalloc_ok E (sizeof_lvm2_io_buffer p)
           then tr ++ [EvLogError LogDescriptorAlloc] else tr)).
Proof.
  intros Hfail. destruct (IOMalloc_ok E (sizeof_lvm2_io_buffer p)) eqn:Hm.
  - destruct Hfail as [|Hc]; [done|]. by apply io_buffer_create_descriptor_fails.
  - by apply io_buffer_create_malloc_fails.
Qed.

Lemma lvm2_io_buffer_create_failure_is_clean_witness :
  lvm2_io_buffer_create LP64 (example_env true false true true 512) 16 (Some 5%nat)
    (example_world 512 [xff]) =
  Done (ENOMEM, Some 5%nat)
       (World (example_mem 512) (example_bmd [xff]) [EvLogError LogDescriptorAlloc]).
Proof.
  apply (lvm2_io_buffer_create_failure_is_clean LP64
           (example_env true false true true 512) 16 (Some 5%nat)
           (example_mem 512) (example_bmd [xff]) []).
  right. reflexivity.
Defined.

(** X3: a successful lvm2_io_buffer_create returns 0 and a handle to a
    struct that was not allocated before; lvm2_io_buffer_get_bytes on the
    handle gives a view of exactly [size] bytes; every block and every
    descriptor that existed before the call is as it was, and nothing is
    logged. *)
Theorem lvm2_io_buffer_create_gives_size_bytes p E size out_buf mem bmd tr :
  0 <= size ->
  IOMalloc_ok E (sizeof_lvm2_io_buffer p) = true ->
  withCapacity_ok E size = true ->
  exists a w1 bytes,
    lvm2_io_buffer_create p E size out_buf (World mem bmd tr) = Done (0, Some a) w1
    /\ mem !! a = None
    /\ lvm2_io_buffer_get_bytes a w1 = Done bytes w1
    /\ Z.of_nat (length bytes) = size
    /\ (forall k, is_Some (mem !! k) -> w_mem w1 !! k = mem !! k)
    /\ (forall k, is_Some (bmd !! k) -> w_bmd w1 !! k = bmd !! k)
    /\ w_trace w1 = tr.
Proof.
  intros Hsize Hm Hc. eexists _, _, _. split; [by apply io_buffer_create_ok|].
  split; [apply fresh_mem|]. split.
  { unfold lvm2_io_buffer_get_bytes, load_io_buffer, getBytesNoCopy, bind. ws.
    rewrite lookup_insert_eq. ws. by rewrite lookup_insert_eq. }
  split; [rewrite length_replicate; lia|]. simpl. split_and!; [| |done].
  - intros k [x Hk]. apply lookup_insert_ne. intros <-.
    by rewrite fresh_mem in Hk.
  - intros k [x Hk]. apply lookup_insert_ne. intros <-.
    by rewrite scratch_fresh in Hk.
Qed.

Lemma lvm2_io_buffer_create_gives_size_bytes_witness :
  exists a w1 bytes,
    lvm2_io_buffer_create LP64 (example_env true true true true 512) 16 None
      (example_world 512 [xff]) = Done (0, Some a) w1
    /\ lvm2_io_buffer_get_bytes a w1 = Done bytes w1
    /\ Z.of_nat (length bytes) = 16.
Proof.
  destruct (lvm2_io_buffer_create_gives_size_bytes LP64
              (example_env true true true true 512) 16 None
              (example_mem 512) (example_bmd [xff]) [])
    as (a & w1 & bytes & Hc & _ & Hg & Hl & _); [lia | reflexivity | reflexivity |].
  exists a, w1, bytes. split; [exact Hc|]. split; [exact Hg | exact Hl].
Defined.

(** X4: creating an I/O buffer and destroying it through the pointer the
    creation returned puts the world back exactly: no block, no descriptor
    and no trace entry is left over, and the pointer is NULL. *)
Theorem lvm2_io_buffer_create_destroy_round_trip p E size out_buf mem bmd tr :
  IOMalloc_ok E (sizeof_lvm2_io_buffer p) = true ->
  withCapacity_ok E size = true ->
  exists buf w1,
    lvm2_io_buffer_create p E size out_buf (World mem bmd tr) = Done (0, buf) w1
    /\ lvm2_io_buffer_destroy p buf w1 = Done None (World mem bmd tr).
Proof.
  intros Hm Hc. eexists _, _. split; [by apply io_buffer_create_ok|].
  rewrite (io_buffer_destroy_live p _ _ _ _ (Build_io_buffer (fresh (dom bmd)))
             (replicate (Z.to_nat size) x00))
    by apply lookup_insert_eq.
  simpl. rewrite !delete_insert_id; [done | apply scratch_fresh | apply fresh_mem].
Qed.

Lemma lvm2_io_buffer_create_destroy_round_trip_witness :
  exists buf w1,
    lvm2_io_buffer_create LP64 (example_env true true true true 512) 16 None
      (example_world 512 [xff]) = Done (0, buf) w1
    /\ lvm2_io_buffer_destroy LP64 buf w1 = Done None (example_world 512 [xff]).
Proof.
  apply (lvm2_io_buffer_create_destroy_round_trip LP64
           (example_env true true true true 512) 16 None
           (example_mem 512) (example_bmd [xff]) []); reflexivity.
Defined.

(** ** Block device handle *)

(** X5: opening a device and closing it through the pointer the open
    returned closes the storage exactly once: the calls made are one
    successful open followed by one close, the opens of the storage balance,
    the handle record is gone from the heap and the pointer is NULL. *)
Theorem lvm2_unix_device_create_destroy_round_trip p E s m out_dev mem bmd tr :
  u64 (getPreferredBlockSize E m) <= U32_MAX ->
  storage_open_ok E s = true ->
  IOMalloc_ok E (sizeof_lvm2_device p) = true ->
  exists dev w1,
    lvm2_unix_device_create p E s m out_dev (World mem bmd tr) = Done (0, dev) w1
    /\ lvm2_unix_device_destroy p dev w1 =
       Done None (World mem bmd (tr ++ [EvOpen s true; EvClose s]))
    /\ open_balance s (tr ++ [EvOpen s true; EvClose s]) = open_balance s tr.
Proof.
  intros Hbs Hopen Hm. eexists _, _. split; [by apply create_ok|]. split.
  - rewrite (device_destroy_live p _ _ _ _
               (Build_device s m (u64 (getPreferredBlockSize E m))))
      by apply lookup_insert_eq.
    simpl. rewrite delete_insert_id by apply fresh_mem. by rewrite <- app_assoc.
  - rewrite open_balance_app. simpl. rewrite Nat.eqb_refl. lia.
Qed.

Lemma lvm2_unix_device_create_destroy_round_trip_witness :
  exists dev w1,
    lvm2_unix_device_create LP64 (example_env true true true true 512) 7 9 None
      (World ∅ ∅ []) = Done (0, dev) w1
    /\ lvm2_unix_device_destroy LP64 dev w1 =
       Done None (World ∅ ∅ [EvOpen 7 true; EvClose 7]).
Proof.
  destruct (lvm2_unix_device_create_destroy_round_trip LP64
              (example_env true true true true 512) 7%nat 9%nat None ∅ ∅ [])
    as (dev & w1 & Hc & Hd & _);
    [vm_compute; discriminate | reflexivity | reflexivity |].
  exists dev, w1. split; [exact Hc | exact Hd].
Defined.

(** X6: when the storage refuses to open, lvm2_unix_device_create returns
    EACCES without allocating anything and without calling close: the
    heaps and [*out_dev] are untouched, and the trace gains the failed open
    and the log entry only. *)
Theorem lvm2_unix_device_create_open_refused p E s m out_dev mem bmd tr :
  u64 (getPreferredBlockSize E m) <= U32_MAX ->
  storage_open_ok E s = false ->
  lvm2_unix_device_create p E s m out_dev (World mem bmd tr) =
    Done (EACCES, out_dev)
         (World mem bmd (tr ++ [EvOpen s false; EvLogError LogOpenMedia]))
  /\ open_balance s (tr ++ [EvOpen s false; EvLogError LogOpenMedia])
     = open_balance s tr.
Proof.
  intros Hbs Hopen. split; [by apply create_eacces|].
  rewrite open_balance_app. simpl. lia.
Qed.

Lemma lvm2_unix_device_create_open_refused_witness :
  lvm2_unix_device_create LP64 (example_env true true false true 512) 7 9 (Some 3%nat)
    (World ∅ ∅ []) =
  Done (EACCES, Some 3%nat) (World ∅ ∅ [EvOpen 7 false; EvLogError LogOpenMedia]).
Proof.
  apply (lvm2_unix_device_create_open_refused LP64
           (example_env true true false true 512) 7%nat 9%nat (Some 3%nat) ∅ ∅ []);
    [vm_compute; discriminate | reflexivity].
Defined.

(** ** The derived quantities *)

(** X7: for a block size that fits the handle's field and is not 0,
    lead_out is at least 1 and at most block_size, whatever the position
    and the count; it is block_size itself whenever lead_in + count is a
    multiple of block_size (LP64, count within SSIZE_MAX). *)
Theorem lead_out_between_1_and_block_size p bs in_pos in_count :
  0 < bs <= U32_MAX ->
  1 <= lead_out p bs in_pos in_count <= bs
  /\ (0 <= in_count <= SSIZE_MAX LP64 ->
      (lead_in bs in_pos + in_count) mod bs = 0 ->
      lead_out LP64 bs in_pos in_count = bs).
Proof.
  intros Hbs. split; [by apply lead_out_range|].
  intros Hc Hmod. rewrite lead_out_spec by done. lia.
Qed.

Lemma lead_out_between_1_and_block_size_witness :
  1 <= lead_out LP64 512 1024 1536 <= 512 /\ lead_out LP64 512 1024 1536 = 512.
Proof.
  destruct (lead_out_between_1_and_block_size LP64 512 1024 1536) as [Hr Hfull];
    [vm_compute; split; first [reflexivity | discriminate]|].
  split; [exact Hr|].
  apply Hfull; [vm_compute; split; first [reflexivity | discriminate] | reflexivity].
Defined.

(** X8: aligned_pos is the start of the block that contains the position:
    it is a multiple of block_size, it is not after the position, the
    position is less than one block after it, and the distance between the
    two is lead_in. *)
Theorem aligned_pos_is_block_start bs in_pos :
  0 < bs <= U32_MAX ->
  0 <= in_pos < 2 ^ 64 ->
  aligned_pos bs in_pos = in_pos - in_pos mod bs
  /\ aligned_pos bs in_pos mod bs = 0
  /\ aligned_pos bs in_pos <= in_pos < aligned_pos bs in_pos + bs
  /\ aligned_pos bs in_pos + lead_in bs in_pos = in_pos.
Proof.
  intros Hbs Hpos. destruct (lead_in_spec bs in_pos Hbs) as [Hli Hrange].
  pose proof (Z.mod_le in_pos bs ltac:(lia) ltac:(lia)) as Hle.
  assert (Hap : aligned_pos bs in_pos = in_pos - in_pos mod bs).
  { unfold aligned_pos, u64. rewrite Hli. apply Z.mod_small. lia. }
  rewrite Hap, Hli. split; [done|]. split; [|lia].
  rewrite Zminus_mod, Z.mod_mod, Z.sub_diag by lia. apply Z.mod_0_l. lia.
Qed.

Lemma aligned_pos_is_block_start_witness :
  aligned_pos 512 1337 = 1024 /\ aligned_pos 512 1337 + lead_in 512 1337 = 1337.
Proof.
  destruct (aligned_pos_is_block_start 512 1337) as (H1 & _ & _ & H4);
    [vm_compute; split; first [reflexivity | discriminate] | vm_compute; split; first [reflexivity | discriminate] |].
  split; [rewrite H1; reflexivity | exact H4].
Defined.

(** X9: on LP64, aligned_count is lead_in + count + lead_out without
    wrap-around, with [count] the stale value of the local, and it is
    congruent modulo block_size to the difference between that stale value
    and in_count.  So the scratch buffer is a whole number of blocks exactly
    when the stale value agrees with in_count modulo block_size. *)
Theorem aligned_count_modulo_block_size bs in_pos in_count count0 :
  0 < bs <= U32_MAX ->
  0 <= in_count <= SSIZE_MAX LP64 ->
  0 <= count0 <= SSIZE_MAX LP64 ->
  aligned_count LP64 bs in_pos in_count count0 =
    lead_in bs in_pos + count0 + lead_out LP64 bs in_pos in_count
  /\ aligned_count LP64 bs in_pos in_count count0 mod bs = (count0 - in_count) mod bs.
Proof.
  intros Hbs Hc Hc0. destruct (lead_in_spec bs in_pos Hbs) as [_ Hli].
  pose proof (lead_out_range LP64 bs in_pos in_count Hbs) as Hlo.
  assert (Hac : aligned_count LP64 bs in_pos in_count count0 =
                lead_in bs in_pos + count0 + lead_out LP64 bs in_pos in_count).
  { unfold aligned_count. apply size_t_small.
    unfold SSIZE_MAX, U32_MAX in *. simpl in *. lia. }
  split; [done|]. rewrite Hac, lead_out_spec by done.
  set (x := lead_in bs in_pos + in_count).
  pose proof (Z.div_mod x bs ltac:(lia)) as Hdm.
  replace (lead_in bs in_pos + count0 + (bs - x mod bs))
    with ((count0 - in_count) + (x / bs + 1) * bs) by (unfold x in *; lia).
  apply Z_mod_plus_full.
Qed.

Lemma aligned_count_modulo_block_size_witness :
  aligned_count LP64 512 513 1 1 = 512 /\ aligned_count LP64 512 513 1 1 mod 512 = 0.
Proof.
  destruct (aligned_count_modulo_block_size 512 513 1 1) as [H1 H2];
    [vm_compute; split; first [reflexivity | discriminate] | vm_compute; split; first [reflexivity | discriminate]
    | vm_compute; split; first [reflexivity | discriminate] |].
  split; [rewrite H1; reflexivity | rewrite H2; reflexivity].
Defined.

(** ** Reading *)

Lemma returns_ret {A : Type} (P : A -> Prop) (a : A) : P a -> returns P (ret a).
Proof. by intros Ha w a' w' [= <- _]. Qed.

Lemma returns_undefined {A : Type} (P : A -> Prop) : returns P undefined.
Proof. by intros w a w'. Qed.

Lemma returns_bind_with {A B : Type} (Q : A -> Prop) (P : B -> Prop)
    (c : M A) (k : A -> M B) :
  returns Q c -> (forall a, Q a -> returns P (k a)) -> returns P (bind c k).
Proof.
  intros Hc Hk w b w'. unfold bind. destruct (c w) as [a w1|] eqn:Hcw; [|done].
  intros Hkw. eapply Hk; [by eapply Hc | done].
Qed.

Lemma returns_bind {A B : Type} (P : B -> Prop) (c : M A) (k : A -> M B) :
  (forall a, returns P (k a)) -> returns P (bind c k).
Proof.
  intros Hk. apply (returns_bind_with (fun _ => True)); [done | auto].
Qed.

(** X10: the results of lvm2_device_read.  Whenever the call returns, the
    result is ERANGE if the count exceeds SSIZE_MAX, and otherwise one of
    0, EIO and ENOMEM; so ERANGE is returned for an oversize count and
    for nothing else.  This holds for every handle, buffer and world. *)
Theorem lvm2_device_read_return_codes p E dev in_pos in_count in_buf count0 w err w' :
  lvm2_device_read p E dev in_pos in_count in_buf count0 w = Done err w' ->
  (SSIZE_MAX p < in_count /\ err = ERANGE)
  \/ (in_count <= SSIZE_MAX p /\ (err = 0 \/ err = EIO \/ err = ENOMEM)).
Proof.
  unfold lvm2_device_read.
  destruct (SSIZE_MAX p <? in_count) eqn:Hlt.
  { intros [= <- _]. left. split; [by apply Z.ltb_lt | done]. }
  apply Z.ltb_ge in Hlt. intros Hread. right. split; [done|].
  revert w err w' Hread.
  apply returns_bind. intros d.
  destruct (block_size d =? 0); [apply returns_undefined|].
  apply returns_bind. intros unaligned.
  apply (returns_bind_with
           (fun sel : Z + Z * nat =>
              match sel with inl e => e = ENOMEM | inr _ => True end)).
  - destruct unaligned.
    + apply returns_bind. intros _. apply returns_bind. intros [a|].
      * by apply returns_ret.
      * apply returns_bind. intros _. by apply returns_ret.
    + apply returns_bind. intros ib. by apply returns_ret.
  - intros [e|[pos buf]] Hsel.
    + apply returns_ret. auto.
    + apply returns_bind. intros status.
      apply (returns_bind_with (fun e => e = 0 \/ e = EIO \/ e = ENOMEM)).
      * destruct (negb status); [apply returns_ret; auto|].
        apply returns_bind. intros ib. apply returns_bind. intros _.
        apply returns_ret. auto.
      * intros e He. apply returns_bind. intros ib. apply returns_bind. intros _.
        by apply returns_ret.
Qed.

Lemma lvm2_device_read_return_codes_witness :
  (SSIZE_MAX LP64 < 1 /\ EIO = ERANGE)
  \/ (1 <= SSIZE_MAX LP64 /\ (EIO = 0 \/ EIO = EIO \/ EIO = ENOMEM)).
Proof.
  apply (lvm2_device_read_return_codes LP64 (example_env true true true false 512)
           0%nat 513 1 1%nat 1 (example_world 512 [xff]) EIO
           (World (example_mem 512) (example_bmd [xff])
              [EvLogError LogUnalignedRead; EvRead 9 7 512 512 false])).
  vm_compute. reflexivity.
Defined.

Lemma aligned_pos_eq bs in_pos :
  0 < bs <= U32_MAX -> 0 <= in_pos < 2 ^ 64 ->
  aligned_pos bs in_pos = in_pos - in_pos mod bs.
Proof.
  intros Hbs Hpos. destruct (lead_in_spec bs in_pos Hbs) as [Hli Hrange].
  pose proof (Z.mod_le in_pos bs ltac:(lia) ltac:(lia)) as Hle.
  unfold aligned_pos, u64. rewrite Hli. apply Z.mod_small. lia.
Qed.

(** X11: what a well-formed, successful read leaves for
    lvm2_io_buffer_get_bytes.  With a destination whose capacity is the
    count and a scratch buffer that is at least as long, the call returns 0
    and the bytes then seen through the destination are the [in_count]
    bytes of the device that start at in_pos - in_pos mod block_size, the
    start of the block; they are the bytes at in_pos when in_pos is a
    multiple of block_size. *)
Theorem lvm2_device_read_then_get_bytes p E mem bmd tr dev in_buf d ib old
    in_pos in_count count0 :
  in_count <= SSIZE_MAX p ->
  0 <= in_pos < 2 ^ 64 ->
  mem !! dev = Some (BDevice d) ->
  0 < block_size d <= U32_MAX ->
  mem !! in_buf = Some (BIoBuffer ib) ->
  bmd !! buffer ib = Some old ->
  withCapacity_ok E (aligned_count p (block_size d) in_pos in_count count0) = true ->
  media_read_ok E (media d) (aligned_pos (block_size d) in_pos)
    (aligned_count p (block_size d) in_pos in_count count0) = true ->
  Z.of_nat (length old) = in_count ->
  in_count <= aligned_count p (block_size d) in_pos in_count count0 ->
  exists w',
    lvm2_device_read p E dev in_pos in_count in_buf count0 (World mem bmd tr) = Done 0 w'
    /\ lvm2_io_buffer_get_bytes in_buf w' =
       Done (slice (media_content E (media d))
               (in_pos - in_pos mod block_size d) in_count) w'
    /\ (in_pos mod block_size d = 0 ->
        lvm2_io_buffer_get_bytes in_buf w' =
        Done (slice (media_content E (media d)) in_pos in_count) w').
Proof.
  intros Hcount Hpos Hdev Hbs Hib Hold Hcap Hrd Hlen Hfit.
  pose proof (aligned_pos_eq (block_size d) in_pos Hbs Hpos) as Hap.
  eexists. split.
  { by apply (read_ok_exact_capacity p E mem bmd tr dev in_buf d ib old). }
  assert (Hget : lvm2_io_buffer_get_bytes in_buf
            (World mem
               (<[buffer ib := slice (media_content E (media d))
                                 (aligned_pos (block_size d) in_pos) in_count]> bmd)
               (tr ++ [EvLogError LogUnalignedRead;
                       EvRead (media d) (storage d) (aligned_pos (block_size d) in_pos)
                         (aligned_count p (block_size d) in_pos in_count count0) true]))
          = Done (slice (media_content E (media d))
                    (in_pos - in_pos mod block_size d) in_count)
              (World mem
               (<[buffer ib := slice (media_content E (media d))
                                 (aligned_pos (block_size d) in_pos) in_count]> bmd)
               (tr ++ [EvLogError LogUnalignedRead;
                       EvRead (media d) (storage d) (aligned_pos (block_size d) in_pos)
                         (aligned_count p (block_size d) in_pos in_count count0) true]))).
  { unfold lvm2_io_buffer_get_bytes, load_io_buffer, getBytesNoCopy, bind. ws.
    rewrite Hib. ws. rewrite lookup_insert_eq. by rewrite Hap. }
  split; [exact Hget|].
  intros Hmod. rewrite Hget. by rewrite Hmod, Z.sub_0_r.
Qed.

Lemma lvm2_device_read_then_get_bytes_witness :
  exists w',
    lvm2_device_read LP64 (example_env true true true true 8) 0 16 4 1 4
      (example_world 8 [xff; xff; xff; xff]) = Done 0 w'
    /\ lvm2_io_buffer_get_bytes 1 w' = Done [x10; x11; x12; x13] w'.
Proof.
  destruct (lvm2_device_read_then_get_bytes LP64 (example_env true true true true 8)
              (example_mem 8) (example_bmd [xff; xff; xff; xff]) [] 0%nat 1%nat
              (Build_device 7 9 8) (Build_io_buffer 0) [xff; xff; xff; xff] 16 4 4)
    as (w' & Hread & _ & Haligned).
  - vm_compute. discriminate.
  - vm_compute. split; first [reflexivity | discriminate].
  - reflexivity.
  - vm_compute. split; first [reflexivity | discriminate].
  - reflexivity.
  - reflexivity.
  - reflexivity.
  - reflexivity.
  - reflexivity.
  - vm_compute. discriminate.
  - exists w'. split; [exact Hread|]. exact (Haligned eq_refl).
Defined.

(** X12: a successful read writes into the destination and nowhere else.
    The destination descriptor keeps its length, its bytes past the ones
    copied are as they were, and every other descriptor that was live
    before the call is unchanged. *)
Theorem lvm2_device_read_keeps_destination_length p E mem bmd tr dev in_buf d ib old
    in_pos in_count count0 :
  0 <= in_count <= SSIZE_MAX p ->
  mem !! dev = Some (BDevice d) ->
  0 < block_size d <= U32_MAX ->
  mem !! in_buf = Some (BIoBuffer ib) ->
  bmd !! buffer ib = Some old ->
  withCapacity_ok E (aligned_count p (block_size d) in_pos in_count count0) = true ->
  media_read_ok E (media d) (aligned_pos (block_size d) in_pos)
    (aligned_count p (block_size d) in_pos in_count count0) = true ->
  bytes_copied in_count old <= aligned_count p (block_size d) in_pos in_count count0 ->
  exists w' new,
    lvm2_device_read p E dev in_pos in_count in_buf count0 (World mem bmd tr) = Done 0 w'
    /\ w_bmd w' !! buffer ib = Some new
    /\ length new = length old
    /\ drop (Z.to_nat (bytes_copied in_count old)) new
       = drop (Z.to_nat (bytes_copied in_count old)) old
    /\ (forall k, k <> buffer ib -> w_bmd w' !! k = bmd !! k).
Proof.
  intros [Hnn Hcount] Hdev Hbs Hib Hold Hcap Hrd Hfit.
  eexists _, _. split.
  { by apply (read_ok p E mem bmd tr dev in_buf d ib _ _ _ old). }
  simpl. split; [apply lookup_insert_eq|].
  set (n := Z.to_nat (bytes_copied in_count old)).
  set (src := slice (media_content E (media d)) (aligned_pos (block_size d) in_pos)
                (aligned_count p (block_size d) in_pos in_count count0)).
  assert (Hn_old : (n <= length old)%nat) by (unfold n, bytes_copied; lia).
  assert (Hn_src : (n <= length src)%nat).
  { unfold src. rewrite length_slice. unfold n. lia. }
  assert (Htake : length (take n src) = n) by (by apply length_take_le).
  split_and!.
  - rewrite length_app, Htake, length_drop. lia.
  - by apply drop_app_length'.
  - intros k Hk. by apply lookup_insert_ne.
Qed.

Lemma lvm2_device_read_keeps_destination_length_witness :
  exists w' new,
    lvm2_device_read LP64 (example_env true true true true 8) 0 3 2 1 2
      (example_world 8 [xff; xff; xff]) = Done 0 w'
    /\ w_bmd w' !! 0%nat = Some new
    /\ length new = 3%nat.
Proof.
  destruct (lvm2_device_read_keeps_destination_length LP64
              (example_env true true true true 8)
              (example_mem 8) (example_bmd [xff; xff; xff]) [] 0%nat 1%nat
              (Build_device 7 9 8) (Build_io_buffer 0) [xff; xff; xff] 3 2 2)
    as (w' & new & Hread & Hnew & Hlen & _).
  - vm_compute. split; discriminate.
  - reflexivity.
  - vm_compute. split; first [reflexivity | discriminate].
  - reflexivity.
  - reflexivity.
  - reflexivity.
  - reflexivity.
  - vm_compute. discriminate.
  - exists w', new. split; [exact Hread|]. split; [exact Hnew | exact Hlen].
Defined.

(** X13: the write-back can read past the scratch buffer.  The scratch
    buffer has aligned_count bytes, a length that depends on the stale
    value of the local [count]; the write-back copies
    min(in_count, destination length) bytes out of it.  When the scratch
    buffer is shorter than that, the allocation and the device read still
    succeed and the copy then reads beyond the end of the scratch buffer:
    the call has no defined result. *)
Theorem lvm2_device_read_copy_past_scratch p E mem bmd tr dev in_buf d ib old
    in_pos in_count count0 :
  in_count <= SSIZE_MAX p ->
  mem !! dev = Some (BDevice d) ->
  0 < block_size d <= U32_MAX ->
  mem !! in_buf = Some (BIoBuffer ib) ->
  bmd !! buffer ib = Some old ->
  withCapacity_ok E (aligned_count p (block_size d) in_pos in_count count0) = true ->
  media_read_ok E (media d) (aligned_pos (block_size d) in_pos)
    (aligned_count p (block_size d) in_pos in_count count0) = true ->
  aligned_count p (block_size d) in_pos in_count count0 < bytes_copied in_count old ->
  lvm2_device_read p E dev in_pos in_count in_buf count0 (World mem bmd tr) = Undefined.
Proof.
  intros Hcount Hdev Hbs Hib Hold Hcap Hrd Hshort.
  pose proof (aligned_count_nonneg p (block_size d) in_pos in_count count0) as Hac0.
  pose proof (scratch_ne bmd ib old Hold) as Hne.
  pose proof (scratch_fresh bmd) as Hfr.
  unfold bytes_copied in Hshort.
  set (apos := aligned_pos (block_size d) in_pos) in *.
  set (acount := aligned_count p (block_size d) in_pos in_count count0) in *.
  set (scratch := fresh (dom bmd)) in *.
  set (L := Z.of_nat (length old)) in *.
  assert (Hneb : Nat.eqb scratch (buffer ib) = false) by (by apply Nat.eqb_neq).
  unfold lvm2_device_read.
  destruct (SSIZE_MAX p <? in_count) eqn:Hlt; [apply Z.ltb_lt in Hlt; lia|].
  unfold bind at 1. unfold load_device. simpl. rewrite Hdev.
  destruct (block_size d =? 0) eqn:Hz; [apply Z.eqb_eq in Hz; lia|].
  pose proof (lead_out_range p (block_size d) in_pos in_count Hbs) as Hlo.
  destruct (lead_out p (block_size d) in_pos in_count =? 0) eqn:Hlo0;
    [apply Z.eqb_eq in Hlo0; lia|].
  rewrite orb_true_r. fold apos acount.
  unfold bind, ret, LogError, emit, withCapacity. ws. rewrite Hcap. fold scratch. ws.
  unfold media_read, getLength, getBytesNoCopy, setBytes, bind, ret, emit. ws.
  rewrite lookup_insert_eq, length_replicate, Z2Nat.id by done. rewrite Hrd. ws.
  rewrite lookup_insert_eq. ws. rewrite insert_insert_eq.
  unfold load_io_buffer. ws. rewrite Hib, Hneb. ws.
  rewrite lookup_insert_eq.
  unfold writeBytes, getBytesNoCopy, setBytes, release, bind, ret. ws.
  rewrite lookup_insert_ne, Hold by done. fold L.
  destruct (L <=? 0) eqn:HL0; [apply Z.leb_le in HL0; lia|].
  rewrite Z.sub_0_r, length_slice, Z2Nat.id by done.
  destruct (acount <? in_count `min` L) eqn:Hac; [|apply Z.ltb_ge in Hac; lia].
  reflexivity.
Qed.

Lemma lvm2_device_read_copy_past_scratch_witness :
  lvm2_device_read LP64 (example_env true true true true 8) 0 9 20 1 0
    (example_world 8 (replicate 20 xff)) = Undefined.
Proof.
  apply (lvm2_device_read_copy_past_scratch LP64 (example_env true true true true 8)
           (example_mem 8) (example_bmd (replicate 20 xff)) [] 0%nat 1%nat
           (Build_device 7 9 8) (Build_io_buffer 0) (replicate 20 xff) 9 20 0).
  - vm_compute. discriminate.
  - reflexivity.
  - vm_compute. split; first [reflexivity | discriminate].
  - reflexivity.
  - reflexivity.
  - reflexivity.
  - reflexivity.
  - vm_compute. reflexivity.
Defined.
